(** * Velvet Pour landing page: App, Navbar and Hero over an abstract GSAP engine

    A shallow embedding of [src/App.jsx], [src/components/Navbar.jsx] and
    [src/components/Hero.jsx].  Render functions become functions from the
    page state to a React element tree; the [useGSAP] callbacks become
    computations in a small state-and-exception monad whose state is the
    animation engine (SplitText instances, tweens, timelines), the DOM
    elements reachable through refs and their event handlers. *)

From Stdlib Require Import ZArith QArith Ascii String Lia.
From stdpp Require Import base option list gmap strings.

Local Open Scope Z_scope.

(** ** JavaScript values and object literals *)

Module JS.

(** The values that occur in the configuration objects handed to the
    animation engine.  Number literals such as [1.8] are kept as exact
    rationals; a video whose metadata has not loaded reports [NaN] as its
    duration. *)
Inductive value :=
| Bool (b : bool)
| Num (q : Q)
| NaN
| Str (s : string).

(** An object literal with heterogeneous fields, in source order. *)
Abbreviation lit := (list (string * value)).

(** [o.k] on an object literal; [None] is [undefined]. *)
Fixpoint field (k : string) (o : lit) : option value :=
  match o with
  | [] => None
  | (k', v) :: o' => if String.eqb k k' then Some v else field k o'
  end.

(** An object of the constants module: string-valued properties. *)
Abbreviation obj := (gmap string string).

(** [o.k] on such an object; [None] is [undefined]. *)
Definition get (o : obj) (k : string) : option string := o !! k.

(** String coercion of a property read inside a template literal. *)
Definition coerce (v : option string) : string :=
  match v with
  | Some s => s
  | None => "undefined"
  end.

End JS.

(** ** React element trees *)

Inductive component := CNavbar | CHero | CCocktails | CAbout | CArt | CMenu | CContact.

Inductive attr :=
| AStr (s : string)      (* name="..." *)
| AFlag                  (* a bare attribute, e.g. [muted] *)
| ARef (r : string).     (* ref={r} *)

#[warnings="-register-all"]
Inductive node :=
| Text (s : string)
| Elem (tag : string) (key : option string) (attrs : list (string * attr)) (children : list node)
| Comp (c : component)
| Fragment (children : list node).

#[global] Instance component_eq_dec : EqDecision component.
Proof. solve_decision. Defined.

(** What a JSX expression container [{v}] contributes to the children when
    [v] is a property read: a string renders as text, [undefined] renders
    nothing. *)
Definition jsx_child (v : option string) : list node :=
  match v with
  | Some s => [Text s]
  | None => []
  end.

(** React's [key={v}]: no key when [v] is [undefined]. *)
Definition jsx_key (v : option string) : option string := v.

Fixpoint descendants (n : node) : list node :=
  n :: match n with
       | Elem _ _ _ cs => flat_map descendants cs
       | Fragment cs => flat_map descendants cs
       | Text _ | Comp _ => []
       end.

Definition children (n : node) : list node :=
  match n with
  | Elem _ _ _ cs => cs
  | Fragment cs => cs
  | Text _ | Comp _ => []
  end.

Definition tag_of (n : node) : option string :=
  match n with
  | Elem t _ _ _ => Some t
  | _ => None
  end.

Fixpoint attr_of (name : string) (attrs : list (string * attr)) : option attr :=
  match attrs with
  | [] => None
  | (k, a) :: rest => if String.eqb name k then Some a else attr_of name rest
  end.

Definition node_attr (name : string) (n : node) : option attr :=
  match n with
  | Elem _ _ attrs _ => attr_of name attrs
  | _ => None
  end.

(** The text directly inside an element. *)
Definition own_text (n : node) : list string :=
  omap (fun c => match c with Text s => Some s | _ => None end) (children n).

Definition components_of (n : node) : list component :=
  omap (fun c => match c with Comp c => Some c | _ => None end) (children n).

(** ** Selector text, as the components hand it to the animation engine *)

Module Selector.

Inductive t := ByClass (c : string) | ById (i : string) | ByTag (tag : string).

Definition parse (s : string) : t :=
  match s with
  | String "."%char rest => ByClass rest
  | String "#"%char rest => ById rest
  | _ => ByTag s
  end.

(** Space-separated class tokens of a [className]. *)
Fixpoint tokens_aux (acc : string) (s : string) : list string :=
  match s with
  | EmptyString => if String.eqb acc "" then [] else [acc]
  | String c rest =>
      if Ascii.eqb c " "%char
      then (if String.eqb acc "" then [] else [acc]) ++ tokens_aux "" rest
      else tokens_aux (acc +:+ String c "") rest
  end.

Definition tokens (s : string) : list string := tokens_aux "" s.

Definition has_class (c : string) (n : node) : bool :=
  match node_attr "className" n with
  | Some (AStr cls) => existsb (String.eqb c) (tokens cls)
  | _ => false
  end.

Definition has_id (i : string) (n : node) : bool :=
  match node_attr "id" n with
  | Some (AStr j) => String.eqb i j
  | _ => false
  end.

Definition matches (sel : t) (n : node) : bool :=
  match sel with
  | ByClass c => has_class c n
  | ById i => has_id i n
  | ByTag tg => match tag_of n with Some u => String.eqb tg u | None => false end
  end.

(** The elements of [root] that the selector text picks, in document order. *)
Definition select (s : string) (root : node) : list node :=
  List.filter (matches (parse s)) (descendants root).

End Selector.

(** ** The animation engine, seen from its callers *)

Module Gsap.

(** What a tween animates: selector text, the [chars] or [lines] array of a
    SplitText instance, or a DOM element. *)
Inductive target :=
| Sel (s : string)
| Chars (split : nat)
| Lines (split : nat)
| El (loc : nat).

Inductive tween_kind := To | From | FromTo.

Record tween := {
  kind : tween_kind;
  tgt : target;
  from_vars : JS.lit;
  vars : JS.lit;
  position : option JS.value;
}.

Record timeline := {
  scrollTrigger : JS.lit;
  tweens : list tween;
}.

Record split := {
  split_target : string;
  split_type : string;
}.

Record engine := {
  splits : list split;          (* SplitText instances, oldest first *)
  root_tweens : list tween;     (* gsap.from(...) outside any timeline *)
  timelines : list timeline;    (* gsap.timeline(...), oldest first *)
  class_adds : list (target * string);  (* classList.add on split pieces *)
}.

Definition empty : engine :=
  {| splits := []; root_tweens := []; timelines := []; class_adds := [] |}.

(** A timeline whose progress is tied to the scroll position. *)
Definition scrubbed (t : timeline) : bool :=
  match JS.field "scrub" (scrollTrigger t) with
  | Some (JS.Bool true) => true
  | _ => false
  end.

Definition trigger (t : timeline) : option JS.value :=
  JS.field "trigger" (scrollTrigger t).

End Gsap.

(** ** Page state *)

(** A closure stored as an event handler.  The only one in the sources is the
    arrow function assigned to [onloadedmetadata], which captures [tl]. *)
Inductive handler :=
| ScrubVideo (tl : nat).

Record element := {
  el_tag : string;
  el_duration : JS.value;
  el_on : gmap string handler;
}.

Record page := {
  navLinks : list JS.obj;        (* constants/index.js *)
  viewport_width : Z;            (* what useMediaQuery observes *)
  gsap : Gsap.engine;
  elements : list element;       (* DOM elements; an element's identity is its index *)
  refs : gmap string nat;        (* [.current] of each ref; absent = undefined *)
}.

Definition set_engine (g : Gsap.engine) (p : page) : page :=
  {| navLinks := navLinks p; viewport_width := viewport_width p; gsap := g;
     elements := elements p; refs := refs p |}.

Definition set_elements (e : list element) (p : page) : page :=
  {| navLinks := navLinks p; viewport_width := viewport_width p; gsap := gsap p;
     elements := e; refs := refs p |}.

Definition set_refs (r : gmap string nat) (p : page) : page :=
  {| navLinks := navLinks p; viewport_width := viewport_width p; gsap := gsap p;
     elements := elements p; refs := r |}.

(** ** Effectful code: state plus exceptions *)

Inductive exn :=
| TypeError (msg : string).

Inductive outcome (A : Type) :=
| Ok (a : A)
| Throw (e : exn).
Arguments Ok {A} a.
Arguments Throw {A} e.

(** A computation runs on the page and leaves a page behind even when it
    throws: what was done before the exception stays done. *)
Definition M (A : Type) : Type := page -> outcome A * page.

Definition ret {A} (a : A) : M A := fun p => (Ok a, p).

Definition bind {A B} (m : M A) (k : A -> M B) : M B :=
  fun p =>
    match m p with
    | (Ok a, p') => k a p'
    | (Throw e, p') => (Throw e, p')
    end.

Definition throw {A} (e : exn) : M A := fun p => (Throw e, p).

Declare Scope js_scope.
Delimit Scope js_scope with js.
Notation "'let*' x := m 'in' k" := (bind m (fun x => k))
  (at level 10, x name, m at level 100, k at level 200) : js_scope.
Notation "m ;; k" := (bind m (fun _ => k))
  (at level 100, k at level 200, right associativity) : js_scope.

Definition exec {A} (m : M A) (p : page) : page := snd (m p).
Definition result {A} (m : M A) (p : page) : outcome A := fst (m p).

Definition succeeds {A} (o : outcome A) : bool :=
  match o with Ok _ => true | Throw _ => false end.

Definition modify_engine (f : Gsap.engine -> Gsap.engine) : M unit :=
  fun p => (Ok tt, set_engine (f (gsap p)) p).

(** *** The engine's API *)

Module Api.
Import Gsap.

(** [new SplitText(sel, { type: ty })]; the result names the instance. *)
Definition new_SplitText (sel ty : string) : M nat :=
  fun p =>
    let g := gsap p in
    (Ok (length (splits g)),
     set_engine {| splits := splits g ++ [{| split_target := sel; split_type := ty |}];
                   root_tweens := root_tweens g; timelines := timelines g;
                   class_adds := class_adds g |} p).

(** [pieces.forEach((x) => x.classList.add(cls))] *)
Definition forEach_classList_add (pieces : target) (cls : string) : M unit :=
  modify_engine (fun g =>
    {| splits := splits g; root_tweens := root_tweens g; timelines := timelines g;
       class_adds := class_adds g ++ [(pieces, cls)] |}).

(** [gsap.from(t, vars)] *)
Definition from (t : target) (v : JS.lit) : M unit :=
  modify_engine (fun g =>
    {| splits := splits g;
       root_tweens := root_tweens g ++
         [{| kind := From; tgt := t; from_vars := []; vars := v; position := None |}];
       timelines := timelines g; class_adds := class_adds g |}).

(** [gsap.timeline({ scrollTrigger: cfg })]; the result names the timeline. *)
Definition timeline (cfg : JS.lit) : M nat :=
  fun p =>
    let g := gsap p in
    (Ok (length (timelines g)),
     set_engine {| splits := splits g; root_tweens := root_tweens g;
                   timelines := timelines g ++ [{| scrollTrigger := cfg; tweens := [] |}];
                   class_adds := class_adds g |} p).

Definition add_tween (w : tween) (t : Gsap.timeline) : Gsap.timeline :=
  {| scrollTrigger := scrollTrigger t; tweens := tweens t ++ [w] |}.

Definition on_timeline (tl : nat) (w : tween) : M unit :=
  modify_engine (fun g =>
    {| splits := splits g; root_tweens := root_tweens g;
       timelines := alter (add_tween w) tl (timelines g);
       class_adds := class_adds g |}).

(** [tl.to(t, vars, pos)] *)
Definition to (tl : nat) (t : target) (v : JS.lit) (pos : option JS.value) : M unit :=
  on_timeline tl {| kind := To; tgt := t; from_vars := []; vars := v; position := pos |}.

(** [tl.fromTo(t, fromVars, toVars)] *)
Definition fromTo (tl : nat) (t : target) (fv v : JS.lit) : M unit :=
  on_timeline tl {| kind := FromTo; tgt := t; from_vars := fv; vars := v; position := None |}.

End Api.

(** *** Refs and DOM elements *)

(** [r.current] *)
Definition current (r : string) : M (option nat) :=
  fun p => (Ok (refs p !! r), p).

(** Property access on [x]: a TypeError when [x] is undefined, the object
    itself otherwise.  [what] is the access attempted, for the message. *)
Definition to_object (x : option nat) (what : string) : M nat :=
  match x with
  | None => throw (TypeError ("Cannot " +:+ what +:+ " of undefined"))
  | Some l => ret l
  end.

(** [el.onEVENT = h] *)
Definition set_on (l : nat) (event : string) (h : handler) : M unit :=
  fun p =>
    (Ok tt,
     set_elements
       (alter (fun e => {| el_tag := el_tag e; el_duration := el_duration e;
                           el_on := <[event := h]> (el_on e) |}) l (elements p)) p).

(** [el.duration] *)
Definition get_duration (l : nat) : M JS.value :=
  fun p =>
    (Ok (match elements p !! l with
         | Some e => el_duration e
         | None => JS.NaN
         end), p).

(** ** The components *)

(** What calling a component function yields: the returned JSX and the
    callback it handed to [useGSAP], if any. *)
Record rendered := {
  markup : node;
  useGSAP : option (M unit);
}.

(** [useMediaQuery({ maxWidth: w })] *)
Definition useMediaQuery_maxWidth (w : Z) (p : page) : bool :=
  viewport_width p <=? w.

Local Open Scope js_scope.

(** *** src/App.jsx *)

Definition App (p : page) : rendered :=
  {| markup :=
       Elem "main" None [] [
         Comp CNavbar;
         Comp CHero;
         Comp CCocktails;
         Comp CAbout;
         Comp CArt;
         Comp CMenu;
         Comp CContact;
         Elem "div" None [("className", AStr "h-dvh bg-black ")] []
       ];
     useGSAP := None |}.

(** *** src/components/Navbar.jsx *)

Definition Navbar_setup : M unit :=
  let* navTween := Api.timeline [("trigger", JS.Str "nav"); ("start", JS.Str "bottom top")] in
  Api.fromTo navTween (Gsap.Sel "nav")
    [("backgroundColor", JS.Str "transparent")]
    [("backgroundColor", JS.Str "#00000050");
     ("backgroundFilter", JS.Str "blur(10px)");
     ("duration", JS.Num 1);
     ("ease", JS.Str "power1.inOut")].

(** The arrow function mapped over [navLinks]. *)
Definition Navbar_item (link : JS.obj) : node :=
  Elem "li" (jsx_key (JS.get link "id")) [] [
    Elem "a" None [("href", AStr ("#" +:+ JS.coerce (JS.get link "id")))]
      (jsx_child (JS.get link "title"))
  ].

Definition Navbar (p : page) : rendered :=
  {| markup :=
       Elem "nav" None [] [
         Elem "div" None [] [
           Elem "a" None [("href", AStr "#home"); ("className", AStr "flex items-center gap-2")] [
             Elem "img" None [("src", AStr "/images/logo.png"); ("alt", AStr "logo")] [];
             Elem "p" None [] [Text "Velvet Pour"]
           ];
           Elem "ul" None [] (map Navbar_item (navLinks p))
         ]
       ];
     useGSAP := Some Navbar_setup |}.

(** *** src/components/Hero.jsx *)

(** The body of the arrow function assigned to [onloadedmetadata]. *)
Definition run_handler (h : handler) : M unit :=
  match h with
  | ScrubVideo tl =>
      let* x := current "videoRef" in
      let* video := to_object x "read properties" in
      let* d := get_duration video in
      Api.to tl (Gsap.El video) [("currentTime", d)] None
  end.

(** The callback handed to [useGSAP]; it closes over [isMobile]. *)
Definition Hero_setup (isMobile : bool) : M unit :=
  let* heroSplit := Api.new_SplitText ".title" "chars, words" in
  let* paragraphSplit := Api.new_SplitText ".subtitle" "lines" in
  Api.forEach_classList_add (Gsap.Chars heroSplit) "text-gradient" ;;
  Api.from (Gsap.Chars heroSplit)
    [("yPercent", JS.Num 100); ("duration", JS.Num 1.8);
     ("ease", JS.Str "expo.out"); ("stagger", JS.Num 0.06)] ;;
  Api.from (Gsap.Lines paragraphSplit)
    [("opacity", JS.Num 0); ("yPercent", JS.Num 100); ("duration", JS.Num 1.8);
     ("ease", JS.Str "expo.out"); ("stagger", JS.Num 0.06); ("delay", JS.Num 1)] ;;
  let* parallax :=
    Api.timeline [("trigger", JS.Str "#hero"); ("start", JS.Str "top top");
                  ("end", JS.Str "bottom top"); ("scrub", JS.Bool true)] in
  Api.to parallax (Gsap.Sel ".right-leaf") [("y", JS.Num 200)] (Some (JS.Num 0)) ;;
  Api.to parallax (Gsap.Sel ".left-leaf") [("y", JS.Num (-200))] (Some (JS.Num 0)) ;;
  Api.to parallax (Gsap.Sel ".arrow") [("y", JS.Num 100)] (Some (JS.Num 0)) ;;
  let startValue := if isMobile then "top 50%" else "center 60%" in
  let endValue := if isMobile then "120% top" else "bottom top" in
  let* tl :=
    Api.timeline [("trigger", JS.Str "video"); ("start", JS.Str startValue);
                  ("end", JS.Str endValue); ("scrub", JS.Bool true);
                  ("pin", JS.Bool true)] in
  let* x := current "videoRef" in
  let* video := to_object x "set properties" in
  set_on video "loadedmetadata" (ScrubVideo tl).

Definition Hero (p : page) : rendered :=
  let isMobile := useMediaQuery_maxWidth 767 p in
  {| markup :=
       Fragment [
         Elem "section" None [("id", AStr "hero"); ("className", AStr "noisy")] [
           Elem "h1" None [("className", AStr "title")] [Text "MOJITO"];
           Elem "img" None [("src", AStr "/images/hero-left-leaf.png"); ("alt", AStr "left-leaf");
                            ("className", AStr "left-leaf")] [];
           Elem "img" None [("src", AStr "/images/hero-right-leaf.png"); ("alt", AStr "right-leaf");
                            ("className", AStr "right-leaf")] [];
           Elem "div" None [("className", AStr "body")] [
             Elem "div" None [("className", AStr "content")] [
               Elem "div" None [("className", AStr "space-y-5 hidden md:block")] [
                 Elem "p" None [] [Text "Cool. Crisp. Classic."];
                 Elem "p" None [("className", AStr "subtitle")] [
                   Text "Sip the Spirit "; Elem "br" None [] []; Text " of Summer"
                 ]
               ];
               Elem "div" None [("className", AStr "view-cocktails")] [
                 Elem "p" None [("className", AStr "subtitle")] [
                   Text "Every cocktail on our menu is a blend of premium ingredients, creative flair, and timeless recipes — designed to delight your senses."
                 ];
                 Elem "a" None [("href", AStr "#cocktails")] [Text "View cocktails"]
               ]
             ]
           ]
         ];
         Elem "div" None [("className", AStr "video absolute inset-0")] [
           Elem "video" None [("ref", ARef "videoRef"); ("muted", AFlag); ("playsInline", AFlag);
                              ("preload", AStr "auto"); ("src", AStr "/videos/output.mp4")] []
         ]
       ];
     useGSAP := Some (Hero_setup isMobile) |}.

(** ** Mounting and events *)

(** React's commit for the refs of a rendered tree: every element carrying
    [ref={r}] is created and [r.current] is pointed at it. *)
Definition attach_ref (n : node) (p : page) : page :=
  match n with
  | Elem tag _ attrs _ =>
      match attr_of "ref" attrs with
      | Some (ARef r) =>
          set_refs (<[r := length (elements p)]> (refs p))
            (set_elements
               (elements p ++ [{| el_tag := tag; el_duration := JS.NaN; el_on := ∅ |}]) p)
      | _ => p
      end
  | _ => p
  end.

Definition commit (tree : node) (p : page) : page :=
  foldl (fun q n => attach_ref n q) p (descendants tree).

Definition run_effect (r : rendered) : M unit :=
  match useGSAP r with
  | Some cb => cb
  | None => ret tt
  end.

(** What the browser does when the metadata of the media element [l] has
    loaded: the duration becomes known, then the element's handler runs. *)
Definition loadedmetadata (l : nat) (d : Q) : M unit :=
  fun p =>
    match elements p !! l with
    | None => (Ok tt, p)
    | Some e =>
        let p' :=
          set_elements
            (<[l := {| el_tag := el_tag e; el_duration := JS.Num d; el_on := el_on e |}]>
               (elements p)) p in
        match el_on e !! "loadedmetadata" with
        | Some h => run_handler h p'
        | None => (Ok tt, p')
        end
    end.

Inductive event :=
| Mount
| LoadedMetadata (l : nat) (d : Q)
| Resize (w : Z).

Record session := {
  pg : page;
  mounted : bool;
  uncaught : list exn;
}.

Definition boot (p : page) : session :=
  {| pg := p; mounted := false; uncaught := [] |}.

(** Rendering the tree of [App] for the first time: the components under
    [src/] are rendered, their refs attached, and their [useGSAP] callbacks
    run in child order. *)
Definition mount : M unit :=
  fun p =>
    let app := App p in
    let navbar := Navbar p in
    let hero := Hero p in
    let p' := commit (markup hero) (commit (markup navbar) (commit (markup app) p)) in
    (run_effect navbar ;; run_effect hero ;; run_effect app) p'.

Definition settle (s : session) (r : outcome unit * page) (now_mounted : bool) : session :=
  {| pg := snd r;
     mounted := now_mounted;
     uncaught := match fst r with
                 | Ok _ => uncaught s
                 | Throw e => uncaught s ++ [e]
                 end |}.

Definition step (s : session) (ev : event) : session :=
  match ev with
  | Mount =>
      if mounted s then s else settle s (mount (pg s)) true
  | LoadedMetadata l d =>
      settle s (loadedmetadata l d (pg s)) (mounted s)
  | Resize w =>
      {| pg := {| navLinks := navLinks (pg s); viewport_width := w; gsap := gsap (pg s);
                  elements := elements (pg s); refs := refs (pg s) |};
         mounted := mounted s; uncaught := uncaught s |}
  end.

Definition run (s : session) (evs : list event) : session := foldl step s evs.

(** A page before anything has been rendered. *)
Definition blank (links : list JS.obj) (w : Z) : page :=
  {| navLinks := links; viewport_width := w; gsap := Gsap.empty; elements := []; refs := ∅ |}.

Definition sample_links : list JS.obj :=
  [ {[ "id" := "cocktails"; "title" := "Cocktails" ]};
    {[ "id" := "about"; "title" := "About Us" ]} ].


(** ** What the setup callbacks are expected to leave in the engine *)

Module Expected.
Import Gsap.

Definition title_split : split :=
  {| split_target := ".title"; split_type := "chars, words" |}.

Definition subtitle_split : split :=
  {| split_target := ".subtitle"; split_type := "lines" |}.

(** The two entrance tweens, over the pieces of the instances [i] and [j]. *)
Definition title_entrance (i : nat) : tween :=
  {| kind := From; tgt := Chars i; from_vars := [];
     vars := [("yPercent", JS.Num 100); ("duration", JS.Num 1.8);
              ("ease", JS.Str "expo.out"); ("stagger", JS.Num 0.06)];
     position := None |}.

Definition subtitle_entrance (j : nat) : tween :=
  {| kind := From; tgt := Lines j; from_vars := [];
     vars := [("opacity", JS.Num 0); ("yPercent", JS.Num 100); ("duration", JS.Num 1.8);
              ("ease", JS.Str "expo.out"); ("stagger", JS.Num 0.06); ("delay", JS.Num 1)];
     position := None |}.

Definition parallax_tween (sel : string) (y : Q) : tween :=
  {| kind := To; tgt := Sel sel; from_vars := []; vars := [("y", JS.Num y)];
     position := Some (JS.Num 0) |}.

(** One timeline carries the leaf tweens and the arrow tween together. *)
Definition parallax_timeline : timeline :=
  {| scrollTrigger := [("trigger", JS.Str "#hero"); ("start", JS.Str "top top");
                       ("end", JS.Str "bottom top"); ("scrub", JS.Bool true)];
     tweens := [parallax_tween ".right-leaf" 200;
                parallax_tween ".left-leaf" (-200);
                parallax_tween ".arrow" 100] |}.

Definition video_trigger (mobile : bool) : JS.lit :=
  [("trigger", JS.Str "video");
   ("start", JS.Str (if mobile then "top 50%" else "center 60%"));
   ("end", JS.Str (if mobile then "120% top" else "bottom top"));
   ("scrub", JS.Bool true); ("pin", JS.Bool true)].

Definition video_timeline (mobile : bool) (tws : list tween) : timeline :=
  {| scrollTrigger := video_trigger mobile; tweens := tws |}.

(** The tween the metadata handler adds: the element's [currentTime] runs
    to the duration [d]. *)
Definition scrub_tween (video : nat) (d : JS.value) : tween :=
  {| kind := To; tgt := El video; from_vars := []; vars := [("currentTime", d)];
     position := None |}.

Definition nav_timeline : timeline :=
  {| scrollTrigger := [("trigger", JS.Str "nav"); ("start", JS.Str "bottom top")];
     tweens := [{| kind := FromTo; tgt := Sel "nav";
                   from_vars := [("backgroundColor", JS.Str "transparent")];
                   vars := [("backgroundColor", JS.Str "#00000050");
                            ("backgroundFilter", JS.Str "blur(10px)");
                            ("duration", JS.Num 1);
                            ("ease", JS.Str "power1.inOut")];
                   position := None |}] |}.

Definition with_handler (event : string) (h : handler) (e : element) : element :=
  {| el_tag := el_tag e; el_duration := el_duration e; el_on := <[event := h]> (el_on e) |}.

(** The page [Navbar_setup] leaves behind when started on [p]. *)
Definition after_Navbar_setup (p : page) : page :=
  let g := gsap p in
  {| navLinks := navLinks p;
     viewport_width := viewport_width p;
     gsap := {| splits := splits g; root_tweens := root_tweens g;
                timelines := timelines g ++ [nav_timeline];
                class_adds := class_adds g |};
     elements := elements p;
     refs := refs p |}.

(** The page [Hero_setup mobile] leaves behind when started on [p]. *)
Definition after_Hero_setup (mobile : bool) (p : page) : page :=
  let g := gsap p in
  let i := length (splits g) in
  {| navLinks := navLinks p;
     viewport_width := viewport_width p;
     gsap := {| splits := splits g ++ [title_split; subtitle_split];
                root_tweens := root_tweens g ++ [title_entrance i; subtitle_entrance (S i)];
                timelines := timelines g ++ [parallax_timeline; video_timeline mobile []];
                class_adds := class_adds g ++ [(Chars i, "text-gradient")] |};
     elements :=
       match refs p !! "videoRef" with
       | Some l => alter (with_handler "loadedmetadata" (ScrubVideo (S (length (timelines g))))) l
                     (elements p)
       | None => elements p
       end;
     refs := refs p |}.

End Expected.

(** ** Observations used in the statements *)

(** The timelines a computation adds to the engine of [p]. *)
Definition created_timelines {A} (m : M A) (p : page) : list Gsap.timeline :=
  drop (length (Gsap.timelines (gsap p))) (Gsap.timelines (gsap (exec m p))).

(** The SplitText instances a computation adds. *)
Definition created_splits {A} (m : M A) (p : page) : list Gsap.split :=
  drop (length (Gsap.splits (gsap p))) (Gsap.splits (gsap (exec m p))).

(** The tweens a computation starts outside any timeline. *)
Definition created_tweens {A} (m : M A) (p : page) : list Gsap.tween :=
  drop (length (Gsap.root_tweens (gsap p))) (Gsap.root_tweens (gsap (exec m p))).

(** The elements of [root] that a list of SplitText instances splits. *)
Definition split_blocks (root : node) (sp : list Gsap.split) : list node :=
  flat_map (fun s => Selector.select (Gsap.split_target s) root) sp.

(** A page on which Hero has been rendered and its ref attached, but no
    effect has run yet. *)
Definition hero_committed (w : Z) : page :=
  let p := blank [] w in commit (markup (Hero p)) p.

(** Forgetting the [start] and [end] of every scroll trigger whose trigger is
    the [video] selector. *)
Definition forget_window (t : Gsap.timeline) : Gsap.timeline :=
  match Gsap.trigger t with
  | Some (JS.Str "video") =>
      {| Gsap.scrollTrigger :=
           List.filter (fun kv => negb (String.eqb (fst kv) "start" || String.eqb (fst kv) "end"))
             (Gsap.scrollTrigger t);
         Gsap.tweens := Gsap.tweens t |}
  | _ => t
  end.

Definition forget_video_window (p : page) : page :=
  let g := gsap p in
  set_engine {| Gsap.splits := Gsap.splits g; Gsap.root_tweens := Gsap.root_tweens g;
                Gsap.timelines := forget_window <$> Gsap.timelines g;
                Gsap.class_adds := Gsap.class_adds g |} p.

(** The list item the claims expect for an entry with identifier [id] and
    title [title]. *)
Definition link_anchor (id title : string) : node :=
  Elem "a" None [("href", AStr ("#" +:+ id))] [Text title].

Definition link_item (id title : string) : node :=
  Elem "li" (Some id) [] [link_anchor id title].

(** Shape consistency of the constants: an entry has an identifier and a title. *)
Definition well_shaped (link : JS.obj) : Prop :=
  is_Some (link !! "id") /\ is_Some (link !! "title").

(** An entry cut down to its identifier and title. *)
Definition read_fields (link : JS.obj) : JS.obj :=
  filter (fun kv => kv.1 = "id" \/ kv.1 = "title") link.

Definition with_links (links : list JS.obj) (p : page) : page :=
  {| navLinks := links; viewport_width := viewport_width p; gsap := gsap p;
     elements := elements p; refs := refs p |}.







(** The page of a session that started blank and has mounted: [mobile] is
    what the media query answered at mount, [dur] the video's duration and
    [ds] the durations the metadata handler has seen. *)
Definition mounted_page (links : list JS.obj) (w : Z) (mobile : bool)
    (dur : JS.value) (ds : list Q) : page :=
  {| navLinks := links;
     viewport_width := w;
     gsap :=
       {| Gsap.splits := [Expected.title_split; Expected.subtitle_split];
          Gsap.root_tweens := [Expected.title_entrance 0; Expected.subtitle_entrance 1];
          Gsap.timelines :=
            [Expected.nav_timeline; Expected.parallax_timeline;
             Expected.video_timeline mobile
               ((fun d => Expected.scrub_tween 0 (JS.Num d)) <$> ds)];
          Gsap.class_adds := [(Gsap.Chars 0, "text-gradient")] |};
     elements := [{| el_tag := "video"; el_duration := dur;
                     el_on := <["loadedmetadata" := ScrubVideo 2]> ∅ |}];
     refs := <["videoRef" := 0%nat]> ∅ |}.


(** ** The whole tree of App *)






(** ** Navbar's render, read by read *)

Module Traced.

(** The constants module as a store: the entry objects by position, and the
    property reads made so far. *)
Record store := {
  links : list JS.obj;
  reads : list (nat * string);
}.

Definition R (A : Type) : Type := store -> A * store.

Definition ret {A} (a : A) : R A := fun s => (a, s).

Definition bind {A B} (m : R A) (k : A -> R B) : R B :=
  fun s => let (a, s') := m s in k a s'.

(** [link.k] where [link] is the entry at position [i]: the read is logged. *)
Definition read_prop (i : nat) (k : string) : R (option string) :=
  fun s =>
    (match links s !! i with
     | Some o => JS.get o k
     | None => None
     end,
     {| links := links s; reads := reads s ++ [(i, k)] |}).

(** [navLinks.map(cb)]: the callback is called on each position in order. *)
Fixpoint map_from (cb : nat -> R node) (i n : nat) : R (list node) :=
  match n with
  | O => ret []
  | S n' =>
      bind (cb i) (fun x =>
      bind (map_from cb (S i) n') (fun xs =>
      ret (x :: xs)))
  end.

Definition navLinks_map (cb : nat -> R node) : R (list node) :=
  fun s => map_from cb 0 (length (links s)) s.

(** The arrow function mapped over [navLinks], read by read. *)
Definition Navbar_item (i : nat) : R node :=
  bind (read_prop i "id") (fun key =>
  bind (read_prop i "id") (fun id =>
  bind (read_prop i "title") (fun title =>
  ret (Elem "li" (jsx_key key) [] [
         Elem "a" None [("href", AStr ("#" +:+ JS.coerce id))] (jsx_child title)
       ])))).

(** The JSX Navbar returns, read by read. *)
Definition Navbar : R node :=
  bind (navLinks_map Navbar_item) (fun items =>
  ret (Elem "nav" None [] [
         Elem "div" None [] [
           Elem "a" None [("href", AStr "#home"); ("className", AStr "flex items-center gap-2")] [
             Elem "img" None [("src", AStr "/images/logo.png"); ("alt", AStr "logo")] [];
             Elem "p" None [] [Text "Velvet Pour"]
           ];
           Elem "ul" None [] items
         ]
       ])).

(** The store a render of Navbar starts from on the page [p]. *)
Definition start (p : page) : store := {| links := navLinks p; reads := [] |}.

(** The reads the callback makes on the position [i]. *)
Definition reads_of (i : nat) : list (nat * string) :=
  [(i, "id"); (i, "id"); (i, "title")].

End Traced.

(** Modelled from the spec: [constants/index.js] is not under [src/].  The
    spec describes the navigation table as a static list in which each entry
    has an identifier and a title; further properties are left open. *)
Record nav_entry := {
  nav_id : string;
  nav_title : string;
  nav_more : JS.obj;
}.

Definition entry_object (e : nav_entry) : JS.obj :=
  <["id" := nav_id e]> (<["title" := nav_title e]> (nav_more e)).

Definition constants_page (entries : list nav_entry) (w : Z) : page :=
  blank (entry_object <$> entries) w.

(** ** Trees as a whole *)

(** The tags of all elements of a tree, in document order. *)
Definition all_tags (root : node) : list string := omap tag_of (descendants root).

(** All text of a tree, in document order. *)
Definition all_texts (root : node) : list string :=
  omap (fun n => match n with Text s => Some s | _ => None end) (descendants root).

(** ** Further observations *)

(** The React key of an element. *)
Definition node_key (n : node) : option string :=
  match n with
  | Elem _ k _ _ => k
  | _ => None
  end.

(** The selector text of a tween target, when it is one. *)
Definition sel_of (t : Gsap.target) : option string :=
  match t with
  | Gsap.Sel s => Some s
  | _ => None
  end.

(** The selector texts a timeline holds: its trigger and its tweens' targets. *)
Definition timeline_selectors (t : Gsap.timeline) : list string :=
  match Gsap.trigger t with
  | Some (JS.Str s) => [s]
  | _ => []
  end ++ omap (fun w => sel_of (Gsap.tgt w)) (Gsap.tweens t).

(** Every selector text a computation hands to the engine. *)
Definition selectors_created {A} (m : M A) (p : page) : list string :=
  (Gsap.split_target <$> created_splits m p)
  ++ omap (fun w => sel_of (Gsap.tgt w)) (created_tweens m p)
  ++ flat_map timeline_selectors (created_timelines m p).

(** The selector texts that pick no element of [root]. *)
Definition unresolved (root : node) (sels : list string) : list string :=
  List.filter (fun s => match Selector.select s root with [] => true | _ => false end) sels.

(** The page Hero's markup is committed on: the video element is created and
    the ref points at it. *)
Definition with_video (p : page) : page :=
  set_refs (<["videoRef" := length (elements p)]> (refs p))
    (set_elements
       (elements p ++ [{| el_tag := "video"; el_duration := JS.NaN; el_on := ∅ |}]) p).

(** * Proofs *)

Section ListFacts.
Context {A : Type}.

Lemma alter_at_end (f : A -> A) (l : list A) (x : A) :
  alter f (length l) (l ++ [x]) = l ++ [f x].
Proof.
  induction l as [|y l IH]; simpl; [reflexivity|].
  f_equal. exact IH.
Qed.

Lemma drop_old (l new : list A) : drop (length l) (l ++ new) = new.
Proof. induction l; simpl; auto. Qed.

Lemma app_two (l : list A) (x y : A) : (l ++ [x]) ++ [y] = l ++ [x; y].
Proof. rewrite <- app_assoc. reflexivity. Qed.

Lemma length_snoc (l : list A) (x : A) : length (l ++ [x]) = S (length l).
Proof. rewrite length_app. simpl. lia. Qed.
End ListFacts.

(** ** Stepping through a computation *)

Lemma bind_ok {A B} (m : M A) (k : A -> M B) (p p' : page) (a : A) :
  m p = (Ok a, p') -> bind m k p = k a p'.
Proof. intros E. unfold bind. rewrite E. reflexivity. Qed.

Lemma bind_throw {A B} (m : M A) (k : A -> M B) (p p' : page) (e : exn) :
  m p = (Throw e, p') -> bind m k p = (Throw e, p').
Proof. intros E. unfold bind. rewrite E. reflexivity. Qed.

(** Each call of the API on an explicit page, for stepping through a callback. *)
Section Primitives.
Import Gsap.
Variables (links : list JS.obj) (w : Z) (els : list element) (rs : gmap string nat).
Variables (sp : list split) (rt : list tween) (tls : list timeline)
          (ca : list (target * string)).

Let P sp rt tls ca els :=
  {| navLinks := links; viewport_width := w;
     gsap := {| splits := sp; root_tweens := rt; timelines := tls; class_adds := ca |};
     elements := els; refs := rs |}.

Lemma new_SplitText_run sel ty :
  Api.new_SplitText sel ty (P sp rt tls ca els)
  = (Ok (length sp),
     P (sp ++ [{| split_target := sel; split_type := ty |}]) rt tls ca els).
Proof. reflexivity. Qed.

Lemma forEach_classList_add_run t cls :
  Api.forEach_classList_add t cls (P sp rt tls ca els)
  = (Ok tt, P sp rt tls (ca ++ [(t, cls)]) els).
Proof. reflexivity. Qed.

Lemma from_run t v :
  Api.from t v (P sp rt tls ca els)
  = (Ok tt,
     P sp (rt ++ [{| kind := From; tgt := t; from_vars := []; vars := v; position := None |}])
       tls ca els).
Proof. reflexivity. Qed.

Lemma timeline_run cfg :
  Api.timeline cfg (P sp rt tls ca els)
  = (Ok (length tls), P sp rt (tls ++ [{| scrollTrigger := cfg; tweens := [] |}]) ca els).
Proof. reflexivity. Qed.

Lemma to_run tl t v pos :
  Api.to tl t v pos (P sp rt tls ca els)
  = (Ok tt,
     P sp rt
       (alter (Api.add_tween {| kind := To; tgt := t; from_vars := []; vars := v;
                                position := pos |}) tl tls) ca els).
Proof. reflexivity. Qed.

Lemma fromTo_run tl t fv v :
  Api.fromTo tl t fv v (P sp rt tls ca els)
  = (Ok tt,
     P sp rt
       (alter (Api.add_tween {| kind := FromTo; tgt := t; from_vars := fv; vars := v;
                                position := None |}) tl tls) ca els).
Proof. reflexivity. Qed.

Lemma current_run r :
  current r (P sp rt tls ca els) = (Ok (rs !! r), P sp rt tls ca els).
Proof. reflexivity. Qed.

Lemma to_object_run l what :
  to_object (Some l) what (P sp rt tls ca els) = (Ok l, P sp rt tls ca els).
Proof. reflexivity. Qed.

Lemma set_on_run l event h :
  set_on l event h (P sp rt tls ca els)
  = (Ok tt, P sp rt tls ca (alter (Expected.with_handler event h) l els)).
Proof. reflexivity. Qed.

Lemma get_duration_run l :
  get_duration l (P sp rt tls ca els)
  = (Ok (match els !! l with Some e => el_duration e | None => JS.NaN end),
     P sp rt tls ca els).
Proof. reflexivity. Qed.
End Primitives.


Tactic Notation "run" constr(lem) := erewrite bind_ok by (apply lem); cbv beta.

(** ** The setup callbacks in closed form *)

Lemma Hero_setup_run (mobile : bool) (p : page) :
  Hero_setup mobile p =
    (match refs p !! "videoRef" with
     | Some _ => Ok tt
     | None => Throw (TypeError "Cannot set properties of undefined")
     end,
     Expected.after_Hero_setup mobile p).
Proof.
  destruct p as [links w [sp rt tls ca] els rs].
  unfold Hero_setup.
  run new_SplitText_run. run new_SplitText_run.
  run forEach_classList_add_run.
  run from_run. run from_run.
  run timeline_run. run to_run. run to_run. run to_run.
  cbv zeta.
  run timeline_run. run current_run.
  rewrite !alter_at_end, !length_snoc, !app_two.
  unfold Expected.after_Hero_setup.
  cbn [gsap navLinks viewport_width elements refs
       Gsap.splits Gsap.root_tweens Gsap.timelines Gsap.class_adds].
  destruct (rs !! "videoRef") as [l|].
  - run to_object_run. rewrite set_on_run. reflexivity.
  - reflexivity.
Qed.

Lemma Navbar_setup_run (p : page) :
  Navbar_setup p = (Ok tt, Expected.after_Navbar_setup p).
Proof.
  destruct p as [links w [sp rt tls ca] els rs].
  unfold Navbar_setup.
  run timeline_run.
  rewrite fromTo_run, alter_at_end. reflexivity.
Qed.

Lemma run_effect_Navbar (p : page) : run_effect (Navbar p) = Navbar_setup.
Proof. reflexivity. Qed.

Lemma run_effect_Hero (p : page) :
  run_effect (Hero p) = Hero_setup (viewport_width p <=? 767).
Proof. reflexivity. Qed.

Lemma run_effect_App (p : page) : run_effect (App p) = ret tt.
Proof. reflexivity. Qed.

(** ** Hero: what the setup creates *)

Lemma Hero_setup_exec (mobile : bool) (p : page) :
  exec (Hero_setup mobile) p = Expected.after_Hero_setup mobile p.
Proof. unfold exec. rewrite Hero_setup_run. reflexivity. Qed.

(** C1, as stated, fails: mounting Hero on a desktop viewport creates two
    scroll-scrubbed timelines, not three. *)
Lemma Hero_two_scrubbed_timelines_not_three :
  length (List.filter Gsap.scrubbed
            (created_timelines (Hero_setup false) (hero_committed 1024))) = 2%nat
  /\ length (created_timelines (Hero_setup false) (hero_committed 1024)) <> 3%nat
  /\ created_timelines (Hero_setup false) (hero_committed 1024)
     = [Expected.parallax_timeline; Expected.video_timeline false []].
Proof. repeat split; vm_compute; congruence. Qed.

Lemma commit_Hero (p q : page) :
  commit (markup (Hero p)) q =
    set_refs (<["videoRef" := length (elements q)]> (refs q))
      (set_elements
         (elements q ++ [{| el_tag := "video"; el_duration := JS.NaN; el_on := ∅ |}]) q).
Proof. reflexivity. Qed.

Lemma alter_second_new {A} (f : A -> A) (l : list A) (x y : A) :
  alter f (S (length l)) (l ++ [x; y]) = l ++ [x; f y].
Proof. induction l as [|z l IH]; [reflexivity|]. cbn. f_equal. exact IH. Qed.

Lemma insert_at_end {A} (l : list A) (x y : A) :
  <[length l := y]> (l ++ [x]) = l ++ [y].
Proof. induction l as [|z l IH]; [reflexivity|]. cbn. f_equal. exact IH. Qed.

Lemma lookup_at_end {A} (l : list A) (x : A) : (l ++ [x]) !! length l = Some x.
Proof. induction l as [|z l IH]; [reflexivity|exact IH]. Qed.

Lemma metadata_after_setup (mobile : bool) (p : page) (d : Q) :
  Gsap.timelines
    (gsap (exec (loadedmetadata (length (elements p)) d)
             (exec (Hero_setup mobile) (commit (markup (Hero p)) p))))
  = Gsap.timelines (gsap p)
    ++ [Expected.parallax_timeline;
        Expected.video_timeline mobile
          [Expected.scrub_tween (length (elements p)) (JS.Num d)]].
Proof.
  rewrite commit_Hero, Hero_setup_exec.
  destruct p as [links w [sp rt tls ca] els rs].
  unfold Expected.after_Hero_setup, set_refs, set_elements.
  cbn [gsap navLinks viewport_width elements refs
       Gsap.splits Gsap.root_tweens Gsap.timelines Gsap.class_adds].
  rewrite lookup_insert_eq, alter_at_end.
  unfold exec, loadedmetadata.
  cbn [elements]. rewrite lookup_at_end.
  unfold Expected.with_handler at 1 2 3. cbn [el_on el_tag el_duration].
  rewrite lookup_insert_eq, insert_at_end.
  unfold set_elements, run_handler.
  cbn [gsap navLinks viewport_width elements refs].
  run current_run. rewrite lookup_insert_eq.
  run to_object_run. run get_duration_run. rewrite lookup_at_end.
  cbn [el_duration].
  rewrite to_run, alter_second_new. reflexivity.
Qed.

(** C1, amended: whatever the viewport and the page, the setup of Hero
    creates exactly two timelines, both scroll-scrubbed.  The first, triggered
    by [#hero], carries the right-leaf, left-leaf and arrow tweens together,
    and the arrow selector picks nothing in Hero's own markup; the second,
    triggered by [video] and pinned, is created empty, and once Hero's markup
    is committed and the video's metadata has loaded it holds the one tween
    the [onloadedmetadata] handler adds, running [currentTime] to the
    duration. *)
Theorem Hero_setup_creates_two_timelines (mobile : bool) (p : page) :
  created_timelines (Hero_setup mobile) p
    = [Expected.parallax_timeline; Expected.video_timeline mobile []]
  /\ List.filter Gsap.scrubbed (created_timelines (Hero_setup mobile) p)
     = created_timelines (Hero_setup mobile) p
  /\ Gsap.tgt <$> Gsap.tweens Expected.parallax_timeline
     = [Gsap.Sel ".right-leaf"; Gsap.Sel ".left-leaf"; Gsap.Sel ".arrow"]
  /\ Selector.select ".arrow" (markup (Hero p)) = []
  /\ length (Selector.select ".right-leaf" (markup (Hero p))) = 1%nat
  /\ length (Selector.select ".left-leaf" (markup (Hero p))) = 1%nat
  /\ (forall d,
        Gsap.timelines
          (gsap (exec (loadedmetadata (length (elements p)) d)
                   (exec (Hero_setup mobile) (commit (markup (Hero p)) p))))
        = Gsap.timelines (gsap p)
          ++ [Expected.parallax_timeline;
              Expected.video_timeline mobile
                [Expected.scrub_tween (length (elements p)) (JS.Num d)]]).
Proof.
  assert (E : created_timelines (Hero_setup mobile) p
              = [Expected.parallax_timeline; Expected.video_timeline mobile []]).
  { unfold created_timelines. rewrite Hero_setup_exec.
    unfold Expected.after_Hero_setup. cbn [gsap Gsap.timelines]. apply drop_old. }
  rewrite E.
  split; [reflexivity|]. split; [destruct mobile; reflexivity|].
  split; [reflexivity|]. split; [reflexivity|]. split; [reflexivity|].
  split; [reflexivity|]. intros d. apply metadata_after_setup.
Qed.

(** C3, as stated, fails: the two SplitText calls split three text blocks of
    Hero's markup, the title and both subtitle paragraphs. *)
Lemma Hero_splits_three_text_blocks :
  length (split_blocks (markup (Hero (hero_committed 1024)))
            (created_splits (Hero_setup false) (hero_committed 1024))) = 3%nat
  /\ length (Selector.select ".subtitle" (markup (Hero (hero_committed 1024)))) = 2%nat.
Proof. split; vm_compute; reflexivity. Qed.

(** C3, amended: the setup of Hero makes exactly two SplitText calls, [.title]
    by characters and words and [.subtitle] by lines, and starts exactly two
    entrance tweens, one over the characters of the first instance and one over
    the lines of the second.  In Hero's markup the first selector picks the
    [h1] and the second picks two paragraphs, so three text blocks are split. *)
Theorem Hero_setup_splits_and_entrances (mobile : bool) (p : page) :
  created_splits (Hero_setup mobile) p
    = [Expected.title_split; Expected.subtitle_split]
  /\ created_tweens (Hero_setup mobile) p
     = [Expected.title_entrance (length (Gsap.splits (gsap p)));
        Expected.subtitle_entrance (S (length (Gsap.splits (gsap p))))]
  /\ tag_of <$> Selector.select ".title" (markup (Hero p)) = [Some "h1"]
  /\ tag_of <$> Selector.select ".subtitle" (markup (Hero p)) = [Some "p"; Some "p"]
  /\ length (split_blocks (markup (Hero p)) (created_splits (Hero_setup mobile) p)) = 3%nat.
Proof.
  assert (E : created_splits (Hero_setup mobile) p
              = [Expected.title_split; Expected.subtitle_split]).
  { unfold created_splits. rewrite Hero_setup_exec. simpl. apply drop_old. }
  rewrite E. repeat split.
  unfold created_tweens. rewrite Hero_setup_exec. simpl. apply drop_old.
Qed.

(** ** Hero: the ref dereference *)

Lemma run_handler_run (tl : nat) (p : page) :
  result (run_handler (ScrubVideo tl)) p =
    match refs p !! "videoRef" with
    | Some _ => Ok tt
    | None => Throw (TypeError "Cannot read properties of undefined")
    end.
Proof.
  unfold result, run_handler, bind, current. simpl.
  destruct (refs p !! "videoRef"); reflexivity.
Qed.

(** C9: the setup of Hero assigns [onloadedmetadata] on [videoRef.current]
    without a check, and the handler reads [duration] the same way.  Each
    succeeds exactly when the ref is attached and throws a TypeError when it is
    unset; once Hero's markup has been committed the ref is attached, so the
    setup that follows does not throw. *)
Theorem Hero_setup_safe_iff_ref_attached (mobile : bool) (p : page) :
  result (Hero_setup mobile) p
    = match refs p !! "videoRef" with
      | Some _ => Ok tt
      | None => Throw (TypeError "Cannot set properties of undefined")
      end
  /\ (forall tl,
        result (run_handler (ScrubVideo tl)) p
        = match refs p !! "videoRef" with
          | Some _ => Ok tt
          | None => Throw (TypeError "Cannot read properties of undefined")
          end)
  /\ refs (commit (markup (Hero p)) p) !! "videoRef" = Some (length (elements p))
  /\ result (Hero_setup mobile) (commit (markup (Hero p)) p) = Ok tt.
Proof.
  split; [|split; [|split]].
  - unfold result. rewrite Hero_setup_run. reflexivity.
  - intros tl. apply run_handler_run.
  - rewrite commit_Hero. simpl. apply lookup_insert_eq.
  - unfold result. rewrite Hero_setup_run, commit_Hero. simpl.
    rewrite lookup_insert_eq. reflexivity.
Qed.

(** ** Hero: the media query *)

(** The markup of Hero is one fixed tree. *)
Lemma Hero_markup_fixed (p q : page) : markup (Hero p) = markup (Hero q).
Proof. unfold Hero. cbn [markup]. reflexivity. Qed.

Lemma forget_window_old (l : list Gsap.timeline) (a b : Gsap.timeline) :
  forget_window <$> (l ++ [a; b]) = (forget_window <$> l) ++ [forget_window a; forget_window b].
Proof. rewrite fmap_app. reflexivity. Qed.

(** C10: the markup Hero returns is the same whatever the media query
    answers.  The answer is only captured by the setup callback, where running
    with [isMobile] true or false gives the same outcome and pages that agree
    once the [start] and [end] of the video scroll trigger are forgotten, and
    that do differ there. *)
Theorem isMobile_only_moves_video_window (p q : page) :
  markup (Hero p) = markup (Hero q)
  /\ useGSAP (Hero p) = Some (Hero_setup (viewport_width p <=? 767))
  /\ result (Hero_setup true) p = result (Hero_setup false) p
  /\ forget_video_window (exec (Hero_setup true) p)
     = forget_video_window (exec (Hero_setup false) p)
  /\ created_timelines (Hero_setup true) p <> created_timelines (Hero_setup false) p.
Proof.
  split; [apply Hero_markup_fixed|]. split; [reflexivity|]. split; [|split].
  - unfold result. rewrite !Hero_setup_run. reflexivity.
  - rewrite !Hero_setup_exec. unfold forget_video_window, Expected.after_Hero_setup, set_engine.
    cbn [gsap navLinks viewport_width elements refs
         Gsap.splits Gsap.root_tweens Gsap.timelines Gsap.class_adds].
    rewrite !forget_window_old. reflexivity.
  - unfold created_timelines. rewrite !Hero_setup_exec.
    unfold Expected.after_Hero_setup. cbn [gsap Gsap.timelines].
    rewrite !drop_old. intros H. inversion H.
Qed.

(** ** Static markup *)

(** C5: App returns its sections in the order Navbar, Hero, Cocktails, About,
    Art, Menu, Contact (followed only by the placeholder [div]), and the
    result does not depend on the page. *)
Theorem App_sections_in_fixed_order (p : page) :
  components_of (markup (App p))
    = [CNavbar; CHero; CCocktails; CAbout; CArt; CMenu; CContact]
  /\ children (markup (App p))
     = (Comp <$> [CNavbar; CHero; CCocktails; CAbout; CArt; CMenu; CContact])
       ++ [Elem "div" None [("className", AStr "h-dvh bg-black ")] []]
  /\ (forall q, markup (App p) = markup (App q)).
Proof. repeat split. Qed.

(** C6: whatever the page, Hero's markup contains the [h1] of class [title]
    with text MOJITO, and it is the only element of that class. *)
Theorem Hero_title_present (p : page) :
  In (Elem "h1" None [("className", AStr "title")] [Text "MOJITO"])
     (descendants (markup (Hero p)))
  /\ Selector.select ".title" (markup (Hero p))
     = [Elem "h1" None [("className", AStr "title")] [Text "MOJITO"]]
  /\ own_text <$> Selector.select "h1" (markup (Hero p)) = [["MOJITO"]].
Proof.
  split; [|split; reflexivity].
  simpl. right. right. left. reflexivity.
Qed.

(** ** Navbar: one item per entry *)

Lemma Navbar_item_descendants (link : JS.obj) :
  descendants (Navbar_item link)
    = Navbar_item link
        :: Elem "a" None [("href", AStr ("#" +:+ JS.coerce (JS.get link "id")))]
             (jsx_child (JS.get link "title"))
        :: jsx_child (JS.get link "title").
Proof.
  unfold Navbar_item. simpl. rewrite !app_nil_r.
  destruct (JS.get link "title"); reflexivity.
Qed.

Lemma select_li_items (links : list JS.obj) :
  List.filter (Selector.matches (Selector.ByTag "li"))
    (flat_map descendants (Navbar_item <$> links))
  = Navbar_item <$> links.
Proof.
  induction links as [|l links IH]; [reflexivity|].
  rewrite fmap_cons. cbn [flat_map]. rewrite List.filter_app, IH, Navbar_item_descendants.
  destruct (JS.get l "title"); reflexivity.
Qed.

Lemma select_a_items (links : list JS.obj) :
  List.filter (Selector.matches (Selector.ByTag "a"))
    (flat_map descendants (Navbar_item <$> links))
  = (fun l => Elem "a" None [("href", AStr ("#" +:+ JS.coerce (JS.get l "id")))]
                (jsx_child (JS.get l "title"))) <$> links.
Proof.
  induction links as [|l links IH]; [reflexivity|].
  rewrite !fmap_cons. cbn [flat_map]. rewrite List.filter_app, IH, Navbar_item_descendants.
  destruct (JS.get l "title"); reflexivity.
Qed.

Lemma Navbar_select_li (p : page) :
  Selector.select "li" (markup (Navbar p)) = Navbar_item <$> navLinks p.
Proof.
  unfold Selector.select. simpl. rewrite !app_nil_r.
  apply select_li_items.
Qed.

Lemma Navbar_select_a (p : page) :
  Selector.select "a" (markup (Navbar p))
  = Elem "a" None [("href", AStr "#home"); ("className", AStr "flex items-center gap-2")]
      [Elem "img" None [("src", AStr "/images/logo.png"); ("alt", AStr "logo")] [];
       Elem "p" None [] [Text "Velvet Pour"]]
    :: ((fun l => Elem "a" None [("href", AStr ("#" +:+ JS.coerce (JS.get l "id")))]
                    (jsx_child (JS.get l "title"))) <$> navLinks p).
Proof.
  unfold Selector.select. simpl. rewrite !app_nil_r.
  f_equal. apply select_a_items.
Qed.

Lemma Navbar_item_shaped (link : JS.obj) (id title : string) :
  link !! "id" = Some id -> link !! "title" = Some title ->
  Navbar_item link = link_item id title.
Proof.
  intros Hid Htitle. unfold Navbar_item, link_item, link_anchor, JS.get, jsx_key.
  rewrite Hid, Htitle. reflexivity.
Qed.

(** C2: the entry at position [i] of navLinks, with identifier [id] and
    title [title], is rendered as the [i]-th list item of Navbar, whose anchor
    points to [#id] and shows [title]; there are as many items as entries, and
    the only anchor besides theirs is the logo link. *)
Theorem Navbar_one_link_per_entry
    (p : page) (i : nat) (link : JS.obj) (id title : string) :
  navLinks p !! i = Some link ->
  link !! "id" = Some id ->
  link !! "title" = Some title ->
  Selector.select "li" (markup (Navbar p)) !! i = Some (link_item id title)
  /\ length (Selector.select "li" (markup (Navbar p))) = length (navLinks p)
  /\ Selector.select "a" (markup (Navbar p)) !! S i = Some (link_anchor id title)
  /\ length (Selector.select "a" (markup (Navbar p))) = S (length (navLinks p)).
Proof.
  intros Hi Hid Htitle.
  rewrite Navbar_select_li, Navbar_select_a.
  split; [|split; [|split]].
  - rewrite list_lookup_fmap, Hi. simpl. f_equal. now apply Navbar_item_shaped.
  - apply length_fmap.
  - simpl. rewrite list_lookup_fmap, Hi. simpl. unfold link_anchor, JS.get.
    rewrite Hid, Htitle. reflexivity.
  - simpl. f_equal. apply length_fmap.
Qed.

Lemma Navbar_one_link_per_entry_witness :
  Selector.select "li" (markup (Navbar (blank sample_links 1024))) !! 1%nat
    = Some (link_item "about" "About Us")
  /\ length (Selector.select "li" (markup (Navbar (blank sample_links 1024)))) = 2%nat
  /\ Selector.select "a" (markup (Navbar (blank sample_links 1024))) !! 2%nat
     = Some (link_anchor "about" "About Us")
  /\ length (Selector.select "a" (markup (Navbar (blank sample_links 1024)))) = 3%nat.
Proof.
  apply (Navbar_one_link_per_entry (blank sample_links 1024) 1
           {[ "id" := "about"; "title" := "About Us" ]} "about" "About Us");
    reflexivity.
Defined.

(** ** The constants are never written *)

Definition keeps_links {A} (m : M A) : Prop :=
  forall p, navLinks (snd (m p)) = navLinks p.

Create HintDb links.

Lemma keeps_ret {A} (a : A) : keeps_links (ret a).
Proof. intros p. reflexivity. Qed.

Lemma keeps_throw {A} (e : exn) : keeps_links (@throw A e).
Proof. intros p. reflexivity. Qed.

Lemma keeps_bind {A B} (m : M A) (k : A -> M B) :
  keeps_links m -> (forall a, keeps_links (k a)) -> keeps_links (bind m k).
Proof.
  intros Hm Hk p. unfold bind. specialize (Hm p).
  destruct (m p) as [[a|e] p']; simpl in *.
  - rewrite Hk. exact Hm.
  - exact Hm.
Qed.

Lemma keeps_modify_engine (f : Gsap.engine -> Gsap.engine) : keeps_links (modify_engine f).
Proof. intros p. reflexivity. Qed.

Lemma keeps_new_SplitText (sel ty : string) : keeps_links (Api.new_SplitText sel ty).
Proof. intros p. reflexivity. Qed.

Lemma keeps_timeline (cfg : JS.lit) : keeps_links (Api.timeline cfg).
Proof. intros p. reflexivity. Qed.

Lemma keeps_current (r : string) : keeps_links (current r).
Proof. intros p. reflexivity. Qed.

Lemma keeps_to_object (x : option nat) (what : string) : keeps_links (to_object x what).
Proof. destruct x; intros p; reflexivity. Qed.

Lemma keeps_set_on (l : nat) (event : string) (h : handler) : keeps_links (set_on l event h).
Proof. intros p. reflexivity. Qed.

Lemma keeps_get_duration (l : nat) : keeps_links (get_duration l).
Proof. intros p. reflexivity. Qed.

#[local] Hint Resolve keeps_ret keeps_throw keeps_modify_engine keeps_new_SplitText
  keeps_timeline keeps_current keeps_to_object keeps_set_on keeps_get_duration : links.

Ltac keeps :=
  repeat first
    [ apply keeps_bind; [|intros ?]
    | solve [auto with links]
    | unfold Api.to, Api.fromTo, Api.from, Api.forEach_classList_add, Api.on_timeline ].

Lemma keeps_Navbar_setup : keeps_links Navbar_setup.
Proof. unfold Navbar_setup. keeps. Qed.

Lemma keeps_Hero_setup (mobile : bool) : keeps_links (Hero_setup mobile).
Proof. unfold Hero_setup. keeps. Qed.

Lemma keeps_run_handler (h : handler) : keeps_links (run_handler h).
Proof. destruct h. unfold run_handler. keeps. Qed.

Lemma keeps_run_effect (r : rendered) :
  (forall cb, useGSAP r = Some cb -> keeps_links cb) -> keeps_links (run_effect r).
Proof.
  unfold run_effect. intros H. destruct (useGSAP r) as [cb|]; [apply H; reflexivity|].
  apply keeps_ret.
Qed.

Lemma attach_ref_links (n : node) (p : page) : navLinks (attach_ref n p) = navLinks p.
Proof.
  destruct n as [| tag key attrs cs | |]; simpl; try reflexivity.
  destruct (attr_of "ref" attrs) as [[| |r]|]; reflexivity.
Qed.

Lemma commit_links (tree : node) (p : page) : navLinks (commit tree p) = navLinks p.
Proof.
  unfold commit. generalize (descendants tree). intros ns. revert p.
  induction ns as [|n ns IH]; intros p; simpl; [reflexivity|].
  rewrite IH. apply attach_ref_links.
Qed.

Lemma keeps_mount : keeps_links mount.
Proof.
  intros p. unfold mount.
  assert (K : keeps_links (bind (run_effect (Navbar p))
                             (fun _ => bind (run_effect (Hero p)) (fun _ => run_effect (App p))))).
  { apply keeps_bind; [|intros ?; apply keeps_bind; [|intros ?]]; apply keeps_run_effect;
      simpl; intros cb E; inversion E; subst; auto using keeps_Navbar_setup, keeps_Hero_setup. }
  rewrite K, !commit_links. reflexivity.
Qed.

Lemma keeps_loadedmetadata (l : nat) (d : Q) : keeps_links (loadedmetadata l d).
Proof.
  intros p. unfold loadedmetadata.
  destruct (elements p !! l) as [e|]; [|reflexivity].
  destruct (el_on e !! "loadedmetadata") as [h|]; [|reflexivity].
  rewrite keeps_run_handler. reflexivity.
Qed.

Lemma step_links (s : session) (ev : event) : navLinks (pg (step s ev)) = navLinks (pg s).
Proof.
  destruct ev as [|l d|w]; cbn [step].
  - destruct (mounted s); [reflexivity|]. cbn [settle pg]. apply keeps_mount.
  - cbn [settle pg]. apply keeps_loadedmetadata.
  - reflexivity.
Qed.

Lemma run_links (evs : list event) (s : session) :
  navLinks (pg (run s evs)) = navLinks (pg s).
Proof.
  revert s. induction evs as [|ev evs IH]; intros s; simpl; [reflexivity|].
  unfold run in IH. rewrite IH. apply step_links.
Qed.

Lemma read_fields_id (link : JS.obj) : read_fields link !! "id" = link !! "id".
Proof.
  unfold read_fields. destruct (link !! "id") as [v|] eqn:E.
  - apply map_lookup_filter_Some_2; [exact E|]. left. reflexivity.
  - apply map_lookup_filter_None_2. left. exact E.
Qed.

Lemma read_fields_title (link : JS.obj) : read_fields link !! "title" = link !! "title".
Proof.
  unfold read_fields. destruct (link !! "title") as [v|] eqn:E.
  - apply map_lookup_filter_Some_2; [exact E|]. right. reflexivity.
  - apply map_lookup_filter_None_2. left. exact E.
Qed.

Lemma Navbar_item_read_fields (link : JS.obj) :
  Navbar_item (read_fields link) = Navbar_item link.
Proof.
  unfold Navbar_item, JS.get. rewrite read_fields_id, read_fields_title. reflexivity.
Qed.

Lemma Traced_item_run (i : nat) (L : list JS.obj) (log : list (nat * string)) (o : JS.obj) :
  L !! i = Some o ->
  Traced.Navbar_item i {| Traced.links := L; Traced.reads := log |}
  = (Navbar_item o, {| Traced.links := L; Traced.reads := log ++ Traced.reads_of i |}).
Proof.
  intros H. unfold Traced.Navbar_item, Traced.bind, Traced.read_prop, Traced.ret.
  cbn [Traced.links Traced.reads]. rewrite H.
  unfold Traced.reads_of. rewrite <- !app_assoc. reflexivity.
Qed.

Lemma Traced_map_from_run (L : list JS.obj) (n : nat) :
  forall (i : nat) (log : list (nat * string)),
    (i + n = length L)%nat ->
    Traced.map_from Traced.Navbar_item i n {| Traced.links := L; Traced.reads := log |}
    = (Navbar_item <$> drop i L,
       {| Traced.links := L;
          Traced.reads := log ++ flat_map Traced.reads_of (seq i n) |}).
Proof.
  induction n as [|n IH]; intros i log Hn.
  - rewrite drop_ge by lia. cbn [Traced.map_from seq flat_map]. rewrite app_nil_r. reflexivity.
  - destruct (lookup_lt_is_Some_2 L i) as [o Ho]; [lia|].
    cbn [Traced.map_from]. unfold Traced.bind at 1.
    rewrite (Traced_item_run i L log o Ho).
    unfold Traced.bind at 1. rewrite IH by lia.
    unfold Traced.ret. cbn [seq flat_map].
    rewrite (drop_S L o i Ho), fmap_cons, <- app_assoc. reflexivity.
Qed.

Lemma Traced_Navbar_run (p : page) :
  Traced.Navbar (Traced.start p)
  = (markup (Navbar p),
     {| Traced.links := navLinks p;
        Traced.reads := flat_map Traced.reads_of (seq 0 (length (navLinks p))) |}).
Proof.
  unfold Traced.Navbar, Traced.bind, Traced.navLinks_map, Traced.start.
  cbn [Traced.links]. rewrite Traced_map_from_run by reflexivity.
  reflexivity.
Qed.

Lemma reads_of_spec (n : nat) (i : nat) (k : string) :
  (i, k) ∈ flat_map Traced.reads_of (seq 0 n) <-> (i < n)%nat /\ (k = "id" \/ k = "title").
Proof.
  rewrite list_elem_of_In, in_flat_map. split.
  - intros (j & Hj & Hin). apply in_seq in Hj. unfold Traced.reads_of in Hin.
    cbn [In] in Hin.
    destruct Hin as [E|[E|[E|[]]]]; inversion E; subst; split; auto; lia.
  - intros [Hi Hk]. exists i. split; [apply in_seq; lia|].
    unfold Traced.reads_of. cbn [In]. destruct Hk as [->| ->]; auto.
Qed.

Lemma entry_object_id (e : nav_entry) : entry_object e !! "id" = Some (nav_id e).
Proof. apply lookup_insert_eq. Qed.

Lemma entry_object_title (e : nav_entry) : entry_object e !! "title" = Some (nav_title e).
Proof.
  unfold entry_object. rewrite lookup_insert_ne by discriminate. apply lookup_insert_eq.
Qed.

(** C7: a render of Navbar, followed read by read, returns the markup of
    [Navbar] and leaves the entries as they were; the properties it reads are
    exactly [id] and [title] of every entry, and rendering from entries cut
    down to these two gives the same markup.  No sequence of events changes
    the list either.  On a table of the shape the spec gives, every entry has
    an identifier and a title and is rendered from these two values. *)
Theorem navLinks_read_only (p : page) :
  fst (Traced.Navbar (Traced.start p)) = markup (Navbar p)
  /\ Traced.links (snd (Traced.Navbar (Traced.start p))) = navLinks p
  /\ (forall i k,
        (i, k) ∈ Traced.reads (snd (Traced.Navbar (Traced.start p)))
        <-> (i < length (navLinks p))%nat /\ (k = "id" \/ k = "title"))
  /\ markup (Navbar (with_links (read_fields <$> navLinks p) p)) = markup (Navbar p)
  /\ (forall evs, navLinks (pg (run (boot p) evs)) = navLinks p)
  /\ (forall entries w,
        Forall well_shaped (navLinks (constants_page entries w))
        /\ Selector.select "li" (markup (Navbar (constants_page entries w)))
           = (fun e => link_item (nav_id e) (nav_title e)) <$> entries).
Proof.
  rewrite Traced_Navbar_run. cbn [fst snd Traced.links Traced.reads].
  split; [reflexivity|]. split; [reflexivity|]. split; [|split; [|split]].
  - intros i k. apply reads_of_spec.
  - unfold Navbar, with_links. cbn [markup navLinks].
    change (map Navbar_item) with (fmap (M:=list) Navbar_item).
    rewrite <- list_fmap_compose.
    rewrite (list_fmap_ext (Navbar_item ∘ read_fields) Navbar_item (navLinks p));
      [reflexivity|].
    intros i l _. apply Navbar_item_read_fields.
  - intros evs. apply run_links.
  - intros entries w. split.
    + unfold constants_page, blank. cbn [navLinks].
      apply Forall_fmap, Forall_forall. intros e _. split.
      * rewrite entry_object_id. eexists; reflexivity.
      * rewrite entry_object_title. eexists; reflexivity.
    + rewrite Navbar_select_li. unfold constants_page, blank. cbn [navLinks].
      rewrite <- list_fmap_compose. apply list_fmap_ext. intros i e _.
      apply Navbar_item_shaped; [apply entry_object_id|apply entry_object_title].
Qed.

(** C8: the three render functions have no error branch.  App and Hero
    return the same tree on every page, built from the listed tags and texts
    only; Navbar returns the fixed frame around one item per entry, each built
    the same way from the entry's [id] and [title] whatever its shape, none
    rejected; and after any sequence of events, including ones whose callbacks
    threw, each returns the markup it returned before. *)
Theorem renders_unconditional (p q : page) :
  markup (App p) = markup (App q)
  /\ markup (Hero p) = markup (Hero q)
  /\ markup (Navbar p)
     = Elem "nav" None [] [
         Elem "div" None [] [
           Elem "a" None [("href", AStr "#home"); ("className", AStr "flex items-center gap-2")] [
             Elem "img" None [("src", AStr "/images/logo.png"); ("alt", AStr "logo")] [];
             Elem "p" None [] [Text "Velvet Pour"]
           ];
           Elem "ul" None []
             ((fun link =>
                 Elem "li" (link !! "id") [] [
                   Elem "a" None
                     [("href", AStr ("#" +:+ default "undefined" (link !! "id")))]
                     (option_list (Text <$> link !! "title"))
                 ]) <$> navLinks p)
         ]
       ]
  /\ all_tags (markup (App p)) = ["main"; "div"]
  /\ all_texts (markup (App p)) = []
  /\ all_tags (markup (Hero p))
     = ["section"; "h1"; "img"; "img"; "div"; "div"; "div"; "p"; "p"; "br";
        "div"; "p"; "a"; "div"; "video"]
  /\ all_texts (markup (Hero p))
     = ["MOJITO"; "Cool. Crisp. Classic."; "Sip the Spirit "; " of Summer";
        "Every cocktail on our menu is a blend of premium ingredients, creative flair, and timeless recipes — designed to delight your senses.";
        "View cocktails"]
  /\ (forall (s : session) (evs : list event),
        markup (App (pg (run s evs))) = markup (App (pg s))
        /\ markup (Navbar (pg (run s evs))) = markup (Navbar (pg s))
        /\ markup (Hero (pg (run s evs))) = markup (Hero (pg s)))
  /\ Selector.select "li" (markup (Navbar p)) = Navbar_item <$> navLinks p.
Proof.
  split; [reflexivity|]. split; [apply Hero_markup_fixed|]. split.
  { unfold Navbar. cbn [markup].
    change (map Navbar_item) with (fmap (M:=list) Navbar_item).
    do 6 f_equal. apply list_fmap_ext. intros i link _.
    unfold Navbar_item, JS.get, jsx_key, JS.coerce, jsx_child.
    destruct (link !! "id"), (link !! "title"); reflexivity. }
  split; [reflexivity|]. split; [reflexivity|]. split; [reflexivity|]. split; [reflexivity|].
  split; [|apply Navbar_select_li].
  intros s evs. split; [reflexivity|]. split; [|apply Hero_markup_fixed].
  unfold Navbar. cbn [markup]. rewrite run_links. reflexivity.
Qed.

(** ** Sessions that start from a blank page *)

Lemma foldl_attach_items (links : list JS.obj) (q : page) :
  foldl (fun q n => attach_ref n q) q (flat_map descendants (Navbar_item <$> links)) = q.
Proof.
  induction links as [|l links IH]; [reflexivity|].
  rewrite fmap_cons. cbn [flat_map]. rewrite foldl_app, Navbar_item_descendants.
  destruct (JS.get l "title"); simpl; exact IH.
Qed.

Lemma commit_Navbar (p q : page) : commit (markup (Navbar p)) q = q.
Proof.
  unfold commit, Navbar. cbn [markup descendants flat_map app]. rewrite !app_nil_r.
  cbn [foldl attach_ref attr_of]. 
  apply foldl_attach_items.
Qed.















Lemma commit_App (p q : page) : commit (markup (App p)) q = q.
Proof. reflexivity. Qed.

Lemma mount_run (p : page) :
  mount p
  = (Ok tt,
     Expected.after_Hero_setup (viewport_width p <=? 767)
       (Expected.after_Navbar_setup (with_video p))).
Proof.
  unfold mount. rewrite commit_Hero, commit_Navbar, commit_App.
  rewrite run_effect_Navbar, run_effect_Hero, run_effect_App.
  fold (with_video p).
  erewrite bind_ok by apply Navbar_setup_run. cbv beta.
  unfold bind. rewrite Hero_setup_run.
  assert (R : refs (Expected.after_Navbar_setup (with_video p)) !! "videoRef"
              = Some (length (elements p))) by apply lookup_insert_eq.
  rewrite R. reflexivity.
Qed.







(** * Further properties of the components *)

(** ** Navbar: setup, keys and malformed entries *)

Lemma Navbar_setup_exec (p : page) : exec Navbar_setup p = Expected.after_Navbar_setup p.
Proof. unfold exec. rewrite Navbar_setup_run. reflexivity. Qed.


(** The keys of Navbar's list items are the entries' [id] properties, in
    order, absent where an entry has none; the anchors are the logo link
    followed by one anchor per entry, whose href is [#] followed by the string
    coercion of [id] and whose text is the [title] when there is one. *)
Theorem Navbar_keys_follow_ids (p : page) :
  node_key <$> Selector.select "li" (markup (Navbar p))
    = (fun link => link !! "id") <$> navLinks p
  /\ node_attr "href" <$> Selector.select "a" (markup (Navbar p))
     = Some (AStr "#home")
       :: ((fun link => Some (AStr ("#" +:+ JS.coerce (link !! "id")))) <$> navLinks p)
  /\ own_text <$> Selector.select "a" (markup (Navbar p))
     = [] :: ((fun link => option_list (link !! "title")) <$> navLinks p).
Proof.
  rewrite Navbar_select_li, Navbar_select_a.
  split; [|split].
  - rewrite <- list_fmap_compose. reflexivity.
  - rewrite fmap_cons, <- list_fmap_compose. reflexivity.
  - rewrite fmap_cons, <- list_fmap_compose. f_equal.
    apply list_fmap_ext. intros i link _. unfold compose, JS.get.
    destruct (link !! "title"); reflexivity.
Qed.

(** An entry without [id] is still rendered: its item has no key and its
    anchor points to [#undefined]. *)
Theorem Navbar_entry_without_id (p : page) (i : nat) (link : JS.obj) :
  navLinks p !! i = Some link ->
  link !! "id" = None ->
  Selector.select "li" (markup (Navbar p)) !! i
  = Some (Elem "li" None [] [Elem "a" None [("href", AStr "#undefined")]
                               (option_list (Text <$> link !! "title"))]).
Proof.
  intros Hi Hid. rewrite Navbar_select_li, list_lookup_fmap, Hi.
  change (Navbar_item <$> Some link) with (Some (Navbar_item link)).
  unfold Navbar_item, JS.get, jsx_key. rewrite Hid.
  destruct (link !! "title"); reflexivity.
Qed.

Lemma Navbar_entry_without_id_witness :
  Selector.select "li" (markup (Navbar (blank [ {[ "title" := "Home" ]} ] 1024))) !! 0%nat
  = Some (Elem "li" None [] [Elem "a" None [("href", AStr "#undefined")] [Text "Home"]]).
Proof.
  exact (Navbar_entry_without_id (blank [ {[ "title" := "Home" ]} ] 1024) 0
           {[ "title" := "Home" ]} eq_refl eq_refl).
Defined.

(** ** Hero: the error path and the handler registration *)



Lemma lookup_second_new {A} (l : list A) (x y : A) : (l ++ [x; y]) !! S (length l) = Some y.
Proof. induction l as [|z l IH]; [reflexivity|exact IH]. Qed.

(** When the ref points at an element, the setup of Hero replaces that
    element's [loadedmetadata] handler and nothing else of it, leaves every
    other element alone, and the timeline the handler captures is the video
    timeline it has just created. *)
Theorem Hero_setup_registers_on_ref (mobile : bool) (p : page) (l : nat) (e : element) :
  refs p !! "videoRef" = Some l ->
  elements p !! l = Some e ->
  (exists e',
      elements (exec (Hero_setup mobile) p) !! l = Some e'
      /\ el_tag e' = el_tag e
      /\ el_duration e' = el_duration e
      /\ el_on e' !! "loadedmetadata"
         = Some (ScrubVideo (S (length (Gsap.timelines (gsap p)))))
      /\ (forall ev, ev <> "loadedmetadata" -> el_on e' !! ev = el_on e !! ev))
  /\ (forall l', l' <> l -> elements (exec (Hero_setup mobile) p) !! l' = elements p !! l')
  /\ Gsap.timelines (gsap (exec (Hero_setup mobile) p))
       !! S (length (Gsap.timelines (gsap p)))
     = Some (Expected.video_timeline mobile []).
Proof.
  intros Hr He. rewrite Hero_setup_exec. unfold Expected.after_Hero_setup.
  cbn [elements gsap Gsap.timelines]. rewrite Hr.
  split; [|split].
  - eexists. split; [rewrite list_lookup_alter_eq, He; reflexivity|].
    unfold Expected.with_handler. cbn [el_tag el_duration el_on].
    split; [reflexivity|]. split; [reflexivity|]. split.
    + apply lookup_insert_eq.
    + intros ev Hev. apply lookup_insert_ne. congruence.
  - intros l' Hl'. apply list_lookup_alter_ne. congruence.
  - apply lookup_second_new.
Qed.

(** ** The metadata handler *)

(** The metadata handler appends one tween to the timeline it captured,
    animating the ref's element to that element's duration, and changes no
    other timeline, no element and no free tween. *)
Theorem run_handler_appends_one_tween
    (tl l : nat) (p : page) (e : element) (t : Gsap.timeline) :
  refs p !! "videoRef" = Some l ->
  elements p !! l = Some e ->
  Gsap.timelines (gsap p) !! tl = Some t ->
  result (run_handler (ScrubVideo tl)) p = Ok tt
  /\ Gsap.timelines (gsap (exec (run_handler (ScrubVideo tl)) p)) !! tl
     = Some {| Gsap.scrollTrigger := Gsap.scrollTrigger t;
               Gsap.tweens := Gsap.tweens t ++ [Expected.scrub_tween l (el_duration e)] |}
  /\ (forall i, i <> tl ->
        Gsap.timelines (gsap (exec (run_handler (ScrubVideo tl)) p)) !! i
        = Gsap.timelines (gsap p) !! i)
  /\ length (Gsap.timelines (gsap (exec (run_handler (ScrubVideo tl)) p)))
     = length (Gsap.timelines (gsap p))
  /\ elements (exec (run_handler (ScrubVideo tl)) p) = elements p
  /\ Gsap.root_tweens (gsap (exec (run_handler (ScrubVideo tl)) p)) = Gsap.root_tweens (gsap p).
Proof.
  intros Hr He Ht.
  assert (E : run_handler (ScrubVideo tl) p
              = (Ok tt,
                 set_engine
                   {| Gsap.splits := Gsap.splits (gsap p);
                      Gsap.root_tweens := Gsap.root_tweens (gsap p);
                      Gsap.timelines :=
                        alter (Api.add_tween (Expected.scrub_tween l (el_duration e))) tl
                          (Gsap.timelines (gsap p));
                      Gsap.class_adds := Gsap.class_adds (gsap p) |} p)).
  { destruct p as [links w [sp rt tls ca] els rs].
    cbn [refs elements gsap Gsap.timelines] in Hr, He, Ht.
    unfold run_handler.
    run current_run. rewrite Hr. run to_object_run. run get_duration_run. rewrite He.
    rewrite to_run. reflexivity. }
  unfold result, exec. rewrite E. cbn [fst snd set_engine gsap elements Gsap.timelines Gsap.root_tweens].
  split; [reflexivity|]. split; [|split; [|split; [|split]]].
  - rewrite list_lookup_alter_eq, Ht. reflexivity.
  - intros i Hi. apply list_lookup_alter_ne. congruence.
  - apply length_alter.
  - reflexivity.
  - reflexivity.
Qed.

Lemma run_handler_appends_one_tween_witness :
  refs (mounted_page [] 1024 false JS.NaN []) !! "videoRef" = Some 0%nat
  /\ Gsap.tweens
       <$> Gsap.timelines (gsap (exec (run_handler (ScrubVideo 2))
                                   (mounted_page [] 1024 false JS.NaN []))) !! 2%nat
     = Some [Expected.scrub_tween 0 JS.NaN].
Proof.
  assert (H : refs (mounted_page [] 1024 false JS.NaN []) !! "videoRef" = Some 0%nat)
    by apply lookup_insert_eq.
  split; [exact H|].
  rewrite (proj1 (proj2 (run_handler_appends_one_tween 2 0
                           (mounted_page [] 1024 false JS.NaN []) _ _ H eq_refl eq_refl))).
  reflexivity.
Defined.

Lemma Hero_setup_registers_on_ref_witness :
  refs (hero_committed 1024) !! "videoRef" = Some 0%nat
  /\ Gsap.timelines (gsap (exec (Hero_setup false) (hero_committed 1024))) !! 1%nat
     = Some (Expected.video_timeline false []).
Proof.
  assert (H : refs (hero_committed 1024) !! "videoRef" = Some 0%nat)
    by (vm_compute; reflexivity).
  split; [exact H|].
  exact (proj2 (proj2 (Hero_setup_registers_on_ref false (hero_committed 1024) 0 _ H eq_refl))).
Defined.

(** ** Mounting as a whole *)

(** Mounting never throws, whatever the page: the commit attaches the ref
    before Hero's setup runs.  Navbar's timeline is created first, then Hero's
    two, and the handler left on the new video element captures the last. *)
Theorem mount_never_throws (p : page) :
  result mount p = Ok tt
  /\ created_timelines mount p
     = [Expected.nav_timeline; Expected.parallax_timeline;
        Expected.video_timeline (viewport_width p <=? 767) []]
  /\ created_splits mount p = [Expected.title_split; Expected.subtitle_split]
  /\ refs (exec mount p) !! "videoRef" = Some (length (elements p))
  /\ elements (exec mount p)
     = elements p
       ++ [{| el_tag := "video"; el_duration := JS.NaN;
              el_on := {[ "loadedmetadata" :=
                            ScrubVideo (2 + length (Gsap.timelines (gsap p))) ]} |}].
Proof.
  unfold result, created_timelines, created_splits, exec. rewrite mount_run.
  unfold Expected.after_Hero_setup, Expected.after_Navbar_setup, with_video, set_refs, set_elements.
  cbn [fst snd gsap refs elements navLinks viewport_width
       Gsap.timelines Gsap.splits Gsap.root_tweens Gsap.class_adds].
  rewrite lookup_insert_eq, <- app_assoc, !drop_old, alter_at_end, length_snoc.
  repeat split.
Qed.

(** ** The media query breakpoint *)

(** The callback Hero hands to [useGSAP] uses the mobile window of the video
    scroll trigger exactly when the viewport is narrower than 768. *)
Theorem video_window_breakpoint (p : page) :
  Gsap.scrollTrigger <$> created_timelines (run_effect (Hero p)) p !! 1%nat
  = Some [("trigger", JS.Str "video");
          ("start", JS.Str (if viewport_width p <? 768 then "top 50%" else "center 60%"));
          ("end", JS.Str (if viewport_width p <? 768 then "120% top" else "bottom top"));
          ("scrub", JS.Bool true); ("pin", JS.Bool true)].
Proof.
  rewrite run_effect_Hero. unfold created_timelines. rewrite Hero_setup_exec.
  unfold Expected.after_Hero_setup. cbn [gsap Gsap.timelines]. rewrite drop_old.
  replace (viewport_width p <? 768) with (viewport_width p <=? 767).
  - reflexivity.
  - destruct (Z.leb_spec (viewport_width p) 767), (Z.ltb_spec (viewport_width p) 768);
      try reflexivity; lia.
Qed.

(** ** Selector texts against the markup *)

(** Of the selector texts the setup of Hero hands to the engine, [.arrow] is
    the only one that picks nothing in Hero's markup; [video] picks the video
    element, not the wrapper of class [video], and [#hero] the section. *)
Theorem Hero_selectors_resolve_except_arrow (mobile : bool) (p : page) :
  unresolved (markup (Hero p)) (selectors_created (Hero_setup mobile) p) = [".arrow"]
  /\ selectors_created (Hero_setup mobile) p
     = [".title"; ".subtitle"; "#hero"; ".right-leaf"; ".left-leaf"; ".arrow"; "video"]
  /\ tag_of <$> Selector.select "video" (markup (Hero p)) = [Some "video"]
  /\ tag_of <$> Selector.select "#hero" (markup (Hero p)) = [Some "section"].
Proof.
  assert (E : selectors_created (Hero_setup mobile) p
     = [".title"; ".subtitle"; "#hero"; ".right-leaf"; ".left-leaf"; ".arrow"; "video"]).
  { unfold selectors_created, created_splits, created_tweens, created_timelines.
    rewrite Hero_setup_exec. unfold Expected.after_Hero_setup.
    cbn [gsap Gsap.timelines Gsap.splits Gsap.root_tweens]. rewrite !drop_old.
    destruct mobile; reflexivity. }
  rewrite E. repeat split.
Qed.

(** ** The metadata handler without a ref *)

(** When the ref is unset the metadata handler throws before it touches the
    timeline: the page is left as it was. *)
Theorem run_handler_throw_changes_nothing (tl : nat) (p : page) :
  refs p !! "videoRef" = None ->
  run_handler (ScrubVideo tl) p
  = (Throw (TypeError "Cannot read properties of undefined"), p).
Proof.
  intros H. destruct p as [links w [sp rt tls ca] els rs]. cbn [refs] in H.
  unfold run_handler. run current_run. rewrite H. reflexivity.
Qed.

Lemma run_handler_throw_changes_nothing_witness :
  run_handler (ScrubVideo 2) (set_refs ∅ (mounted_page [] 1024 false (JS.Num 12) []))
  = (Throw (TypeError "Cannot read properties of undefined"),
     set_refs ∅ (mounted_page [] 1024 false (JS.Num 12) [])).
Proof.
  apply run_handler_throw_changes_nothing. apply lookup_empty.
Defined.

(** ** Entrance tweens and their SplitText instances *)

Lemma lookup_first_new {A} (l : list A) (x y : A) : (l ++ [x; y]) !! length l = Some x.
Proof. induction l as [|z l IH]; [reflexivity|exact IH]. Qed.

(** The entrance tweens animate the pieces of the two SplitText instances
    this very run created, the characters of the title instance and the lines
    of the subtitle instance, and the gradient class goes to the same
    characters. *)
Theorem Hero_entrances_target_own_splits (mobile : bool) (p : page) :
  Gsap.tgt <$> created_tweens (Hero_setup mobile) p
    = [Gsap.Chars (length (Gsap.splits (gsap p)));
       Gsap.Lines (S (length (Gsap.splits (gsap p))))]
  /\ Gsap.splits (gsap (exec (Hero_setup mobile) p)) !! length (Gsap.splits (gsap p))
     = Some {| Gsap.split_target := ".title"; Gsap.split_type := "chars, words" |}
  /\ Gsap.splits (gsap (exec (Hero_setup mobile) p)) !! S (length (Gsap.splits (gsap p)))
     = Some {| Gsap.split_target := ".subtitle"; Gsap.split_type := "lines" |}
  /\ Gsap.class_adds (gsap (exec (Hero_setup mobile) p))
     = Gsap.class_adds (gsap p)
       ++ [(Gsap.Chars (length (Gsap.splits (gsap p))), "text-gradient")].
Proof.
  unfold created_tweens. rewrite Hero_setup_exec. unfold Expected.after_Hero_setup.
  cbn [gsap Gsap.splits Gsap.root_tweens Gsap.class_adds]. rewrite drop_old.
  split; [reflexivity|]. split; [apply lookup_first_new|].
  split; [apply lookup_second_new|reflexivity].
Qed.

(** ** Navbar: the trigger selector *)

Lemma select_nav_items (links : list JS.obj) :
  List.filter (Selector.matches (Selector.ByTag "nav"))
    (flat_map descendants (Navbar_item <$> links)) = [].
Proof.
  induction links as [|l links IH]; [reflexivity|].
  rewrite fmap_cons. cbn [flat_map]. rewrite List.filter_app, IH, Navbar_item_descendants.
  destruct (JS.get l "title"); reflexivity.
Qed.

(** The selector text Navbar's setup hands to the engine, [nav], picks
    exactly the root of Navbar's markup, whatever the entries. *)
Theorem Navbar_trigger_is_its_root (p : page) :
  selectors_created Navbar_setup p = ["nav"; "nav"]
  /\ Selector.select "nav" (markup (Navbar p)) = [markup (Navbar p)]
  /\ unresolved (markup (Navbar p)) (selectors_created Navbar_setup p) = [].
Proof.
  assert (E : selectors_created Navbar_setup p = ["nav"; "nav"]).
  { unfold selectors_created, created_splits, created_tweens, created_timelines.
    rewrite Navbar_setup_exec. unfold Expected.after_Navbar_setup.
    cbn [gsap Gsap.timelines Gsap.splits Gsap.root_tweens].
    rewrite drop_old, !drop_all. reflexivity. }
  assert (S : Selector.select "nav" (markup (Navbar p)) = [markup (Navbar p)]).
  { unfold Selector.select, Navbar.
    cbn [markup descendants flat_map app]. rewrite !app_nil_r.
    cbn [List.filter Selector.parse].
    match goal with
    | |- context [List.filter ?f (flat_map descendants ?l)] =>
        change (List.filter f (flat_map descendants l))
          with (List.filter (Selector.matches (Selector.ByTag "nav"))
                  (flat_map descendants (Navbar_item <$> navLinks p)))
    end.
    rewrite select_nav_items. reflexivity. }
  rewrite E. split; [reflexivity|]. split; [exact S|].
  unfold unresolved. cbn [List.filter]. rewrite S. reflexivity.
Qed.
